(** * create_test_image.py: the fixture image of the multimodal demo

    A shallow embedding of [examples/multimodal-demo/create_test_image.py].
    The script is a straight line of calls into Pillow ([Image.new],
    [ImageDraw.Draw], [rectangle], [text], [ellipse], [save]) followed by a
    [print].  The process state is passed explicitly: the module globals
    [img] and [draw], the heap of image objects (the [ImageDraw] object
    aliases the image it draws on), the files of the working directory and
    the lines written to standard output.  Python exceptions are the error
    side of a state-and-error monad.

    What the script does not fix is taken from the environment: the default
    font (either an error when it cannot be loaded, or the coverage mask of
    a string) and the outcome the operating system gives to a write. *)

From Stdlib Require Import ZArith String List Bool Lia.
From Stdlib Require Import Strings.Byte.
From stdpp Require Import base option list gmap strings.
Import ListNotations.

Local Open Scope string_scope.
Local Open Scope Z_scope.

(** ** Colours: the entries of [ImageColor.colormap] the script names *)

Definition RGB : Type := (Z * Z * Z)%type.

Definition white : RGB := (255, 255, 255).
Definition black : RGB := (0, 0, 0).
Definition blue : RGB := (0, 0, 255).
Definition lightblue : RGB := (173, 216, 230).

Definition rgb_eqb (a b : RGB) : bool :=
  let '(r1, g1, b1) := a in
  let '(r2, g2, b2) := b in
  (r1 =? r2) && (g1 =? g2) && (b1 =? b2).

(** [ImageColor.getrgb] on a colour name; an unknown name raises
    [ValueError], here [None]. *)
Definition getrgb (name : string) : option RGB :=
  if String.eqb name "white" then Some white
  else if String.eqb name "black" then Some black
  else if String.eqb name "blue" then Some blue
  else if String.eqb name "lightblue" then Some lightblue
  else None.

(** ** Images *)

(** An image object: its mode, its size (width, height) and its pixel
    buffer, read at a column [x] and a row [y]. *)
Record Image := mkImage {
  im_mode : string;
  im_size : Z * Z;
  im_data : Z -> Z -> RGB
}.

Definition in_bounds (size : Z * Z) (x y : Z) : bool :=
  (0 <=? x) && (x <? fst size) && (0 <=? y) && (y <? snd size).

(** [Image.getpixel]: out of range it raises [IndexError], here [None]. *)
Definition getpixel (im : Image) (xy : Z * Z) : option RGB :=
  if in_bounds (im_size im) (fst xy) (snd xy)
  then Some (im_data im (fst xy) (snd xy))
  else None.

(** The drawing core paints a set of pixels, given by its membership test,
    with one ink, and clips at the image's edges: the size never changes and
    a pixel out of range is not written. *)
Definition paint (mask : Z -> Z -> bool) (ink : RGB) (im : Image) : Image :=
  mkImage (im_mode im) (im_size im)
    (fun x y => if mask x y && in_bounds (im_size im) x y then ink
                else im_data im x y).

(** [DIV255] and [BLEND8] of the imaging core: a channel of the image and
    a channel of the ink, mixed by a coverage out of 255. *)
Definition DIV255 (a : Z) : Z :=
  let tmp := a + 128 in Z.shiftr (Z.shiftr tmp 8 + tmp) 8.

Definition BLEND8 (mask in1 in2 : Z) : Z :=
  DIV255 (in1 * (255 - mask) + in2 * mask).

Definition blend (mask : Z) (under ink : RGB) : RGB :=
  let '(r1, g1, b1) := under in
  let '(r2, g2, b2) := ink in
  (BLEND8 mask r1 r2, BLEND8 mask g1 g2, BLEND8 mask b1 b2).

(** [draw_bitmap(xy, mask, ink)]: the ink is mixed into every pixel of the
    image by the coverage the mask has there; where the mask has none the
    pixel stays.  Pixels out of range are not written. *)
Definition draw_bitmap (mask : Z -> Z -> Z) (ink : RGB) (im : Image) : Image :=
  mkImage (im_mode im) (im_size im)
    (fun x y => if in_bounds (im_size im) x y
                then blend (mask x y) (im_data im x y) ink
                else im_data im x y).

(** A bounding box [x0, y0, x1, y1], both corners included. *)
Definition Box : Type := (Z * Z * Z * Z)%type.

Definition in_box (b : Box) (x y : Z) : bool :=
  let '(x0, y0, x1, y1) := b in
  (x0 <=? x) && (x <=? x1) && (y0 <=? y) && (y <=? y1).

(** [draw_rectangle(xy, ink, 1)]: every pixel of the box. *)
Definition rect_fill_mask (b : Box) (x y : Z) : bool := in_box b x y.

(** [draw_rectangle(xy, ink, 0, width)]: [width] rows from the top and from
    the bottom edge and [width] columns from the left and from the right
    edge, all drawn inwards. *)
Definition rect_outline_mask (b : Box) (width : Z) (x y : Z) : bool :=
  let '(x0, y0, x1, y1) := b in
  let w := if width =? 0 then 1 else width in
  in_box b x y &&
  ((y <? y0 + w) || (y1 - w <? y) || (x <? x0 + w) || (x1 - w <? x)).

(** *** The ellipse rasteriser of the drawing core

    The core walks one quarter of the ellipse in doubled coordinates
    relative to the centre of the box ([a] and [b] are the box's width and
    height, a point has the parity of [a] and [b]), from the point on the
    horizontal axis to the point on the vertical axis, and each time steps to
    the neighbour that deviates least from the curve.  From the walk it
    emits horizontal spans, mirrored into the four quarters.  The C integers
    are modelled without overflow. *)

Record quarter_state := mkQuarter {
  q_cx : Z; q_cy : Z; q_ex : Z; q_ey : Z;
  q_a2 : Z; q_b2 : Z; q_a2b2 : Z;
  q_finished : bool
}.

(** [quarter_init(s, a, b)]. *)
Definition quarter_init (a b : Z) : quarter_state :=
  if (a <? 0) || (b <? 0) then mkQuarter 0 0 0 0 0 0 0 true
  else mkQuarter a (Z.rem b 2) (Z.rem a 2) b (a * a) (b * b)
         (a * a * (b * b)) false.

(** [quarter_delta(s, x, y)]: how far the point is off the curve. *)
Definition quarter_delta (s : quarter_state) (x y : Z) : Z :=
  Z.abs (q_a2 s * y * y + q_b2 s * x * x - q_a2b2 s).

(** [quarter_next(s, &x, &y)]: the current point, and the state moved to
    the next one; [None] is the C function's [-1]. *)
Definition quarter_next (s : quarter_state) : option (Z * Z) * quarter_state :=
  if q_finished s then (None, s)
  else
    let ret := (q_cx s, q_cy s) in
    if (q_cx s =? q_ex s) && (q_cy s =? q_ey s) then
      (Some ret,
       mkQuarter (q_cx s) (q_cy s) (q_ex s) (q_ey s)
         (q_a2 s) (q_b2 s) (q_a2b2 s) true)
    else
      let nx := q_cx s in
      let ny := q_cy s + 2 in
      let ndelta := quarter_delta s nx ny in
      let n :=
        if nx >? 1 then
          let d1 := quarter_delta s (q_cx s - 2) (q_cy s + 2) in
          let n1 := if ndelta >? d1 then (q_cx s - 2, q_cy s + 2, d1)
                    else (nx, ny, ndelta) in
          let d2 := quarter_delta s (q_cx s - 2) (q_cy s) in
          if snd n1 >? d2 then (q_cx s - 2, q_cy s) else fst n1
        else (nx, ny) in
      (Some ret,
       mkQuarter (fst n) (snd n) (q_ex s) (q_ey s)
         (q_a2 s) (q_b2 s) (q_a2b2 s) false).

(** A span of the walk, [(x0, y, x1)]. *)
Definition Span : Type := (Z * Z * Z)%type.

Record ellipse_state := mkEllipse {
  st_o : quarter_state;
  st_i : quarter_state;
  e_py : Z; e_pl : Z; e_pr : Z;
  e_buf : list Span;
  e_finished : bool;
  e_leftmost : Z
}.

(** [ellipse_init(s, a, b, w)]: the outer walk, and the inner walk of an
    outline of width [w]. *)
Definition ellipse_init (a b w : Z) : ellipse_state :=
  let stopped :=
    mkEllipse (quarter_init a b) (quarter_init a b) 0 0 0 [] true (Z.rem a 2) in
  if w <? 1 then stopped
  else
    match quarter_next (quarter_init a b) with
    | (None, _) => stopped
    | (Some (x, y), o) =>
        mkEllipse o (quarter_init (a - 2 * (w - 1)) (b - 2 * (w - 1)))
          y (Z.rem a 2) x [] false (Z.rem a 2)
    end.

(** [while ((next_ret = quarter_next(&s->st_o, &cx, &cy)) != -1 && cy <= y)]
    with an empty body: the first point of the outer walk above row [y]. *)
Fixpoint skip_outer (fuel : nat) (q : quarter_state) (y : Z)
  : option (Z * Z) * quarter_state :=
  match fuel with
  | O => (None, q)
  | S n =>
      match quarter_next q with
      | (Some (cx, cy), q') =>
          if cy <=? y then skip_outer n q' y else (Some (cx, cy), q')
      | (None, q') => (None, q')
      end
  end.

(** The same loop on the inner walk, whose body is [l = cx]. *)
Fixpoint skip_inner (fuel : nat) (q : quarter_state) (y l : Z)
  : option (Z * Z) * quarter_state * Z :=
  match fuel with
  | O => (None, q, l)
  | S n =>
      match quarter_next q with
      | (Some (cx, cy), q') =>
          if cy <=? y then skip_inner n q' y cx else (Some (cx, cy), q', l)
      | (None, q') => (None, q', l)
      end
  end.

(** [ellipse_next(s, &x0, &y, &x1)]: the next span.  When the buffer is
    empty, one row of the walk fills it with up to four spans, which are
    handed out last in, first out. *)
Definition ellipse_next (fuel : nat) (s : ellipse_state)
  : option Span * ellipse_state :=
  match e_buf s with
  | sp :: rest =>
      (Some sp,
       mkEllipse (st_o s) (st_i s) (e_py s) (e_pl s) (e_pr s) rest
         (e_finished s) (e_leftmost s))
  | [] =>
      if e_finished s then (None, s)
      else
        let y := e_py s in
        let r := e_pr s in
        let '(no, o') := skip_outer fuel (st_o s) y in
        let fin := match no with None => true | Some _ => false end in
        let pr' := match no with None => e_pr s | Some (cx, _) => cx end in
        let py' := match no with None => e_py s | Some (_, cy) => cy end in
        let '(ni, i', l) := skip_inner fuel (st_i s) y (e_pl s) in
        let pl' := match ni with None => e_leftmost s | Some (cx, _) => cx end in
        let lc := if l =? 0 then 2 else l in
        let b1 := if ((l >? 0) || (l <? r)) && (y >? 0) then [(lc, y, r)] else [] in
        let b2 := if y >? 0 then [(- r, y, - l)] else [] in
        let b3 := if (l >? 0) || (l <? r) then [(lc, - y, r)] else [] in
        let pushed := (b1 ++ b2 ++ b3 ++ [(- r, - y, - l)])%list in
        match rev pushed with
        | sp :: rest =>
            (Some sp, mkEllipse o' i' py' pl' pr' rest fin (e_leftmost s))
        | [] => (None, s)
        end
  end.

(** The loop of [ellipseNew]: every span of the walk, moved to the box. *)
Fixpoint ellipse_spans (fuel inner : nat) (s : ellipse_state)
    (x0 y0 a b : Z) : list Span :=
  match fuel with
  | O => []
  | S n =>
      match ellipse_next inner s with
      | (None, _) => []
      | (Some (X0, Y, X1), s') =>
          (x0 + Z.quot (X0 + a) 2, y0 + Z.quot (Y + b) 2,
           x0 + Z.quot (X1 + a) 2) :: ellipse_spans n inner s' x0 y0 a b
      end
  end.

(** [ellipseNew(im, x0, y0, x1, y1, ink, fill, width)]: the horizontal
    lines it draws.  A filled ellipse is an outline as wide as the box. *)
Definition ellipseNew (b : Box) (fill : bool) (width : Z) : list Span :=
  let '(x0, y0, x1, y1) := b in
  let a := x1 - x0 in
  let h := y1 - y0 in
  if (a <? 0) || (h <? 0) then []
  else
    let w := if fill then a + h else width in
    ellipse_spans (Z.to_nat (4 * (h + 2))) (Z.to_nat (a + h + 2))
      (ellipse_init a h w) x0 y0 a h.

(** [hline(im, x0, y, x1, ink)] covers the row [y] between its two ends,
    whichever is the left one. *)
Definition on_span (x y : Z) (sp : Span) : bool :=
  let '(xa, ys, xb) := sp in
  (y =? ys) && (Z.min xa xb <=? x) && (x <=? Z.max xa xb).

Definition span_mask (l : list Span) (x y : Z) : bool :=
  existsb (on_span x y) l.

(** [draw_ellipse(xy, ink, 1)]: the filled ellipse. *)
Definition ellipse_fill_mask (b : Box) (x y : Z) : bool :=
  span_mask (ellipseNew b true 1) x y.

(** [draw_ellipse(xy, ink, 0, width)]: the outline. *)
Definition ellipse_outline_mask (b : Box) (width : Z) (x y : Z) : bool :=
  span_mask (ellipseNew b false width) x y.

(** ** The process: globals, heap, working directory, standard output *)

(** The exceptions that reach this script. *)
Inductive exn :=
| OSError (errno : Z)
| ValueError (msg : string)
| NameError (name : string).

(** The content of a file of the working directory.  The PNG codec is
    lossless, so a PNG file is identified with the image it encodes; a write
    that broke off after [n] bytes leaves a partial file. *)
Inductive File :=
| PngFile (im : Image)
| PartialPng (im : Image) (n : nat)
| OtherFile (content : string).

(** What a failed write leaves at its path: nothing changed (the file could
    not be opened), a partial file, or no file. *)
Inductive Residue := Untouched | Truncated (n : nat) | Unlinked.

(** What the operating system answers to a write at a path. *)
Inductive Outcome := WriteOk | WriteErr (e : exn) (r : Residue).

(** The default font, as the text renderer uses it: the coverage, a byte,
    that the string [s] has [dx] columns and [dy] rows from the anchor it is
    drawn at; 0 is no ink, 255 full ink, and an anti-aliased glyph has the
    values in between on its edges. *)
Definition Font : Type := string -> Z -> Z -> Byte.byte.

(** An [ImageDraw] object: a reference to the image it draws on, its
    default ink and its default fill flag. *)
Record Draw := mkDraw {
  d_im : nat;
  d_ink : RGB;
  d_fill : bool
}.

(** The calls the drawing core and the file layer have carried out. *)
Inductive Call :=
| CRectangle (b : Box) (fill outline : option RGB) (width : Z)
| CText (xy : Z * Z) (text : string) (ink : RGB)
| CEllipse (b : Box) (fill outline : option RGB) (width : Z)
| CSave (filename : string).

Record State := mkState {
  g_img : option nat;
  g_draw : option Draw;
  heap : list Image;
  files : gmap string File;
  stdout : list string;
  font : exn + Font;
  write_outcome : string -> Outcome;
  trace : list Call
}.

(** What a process finds when it starts and leaves when it ends. *)
Record Env := mkEnv {
  e_files : gmap string File;
  e_stdout : list string;
  e_font : exn + Font;
  e_write : string -> Outcome
}.

Definition boot (e : Env) : State :=
  mkState None None [] (e_files e) (e_stdout e) (e_font e) (e_write e) [].

Definition env_of (s : State) : Env :=
  mkEnv (files s) (stdout s) (font s) (write_outcome s).

Definition set_img (r : nat) (s : State) : State :=
  mkState (Some r) (g_draw s) (heap s) (files s) (stdout s) (font s)
    (write_outcome s) (trace s).

Definition set_draw (d : Draw) (s : State) : State :=
  mkState (g_img s) (Some d) (heap s) (files s) (stdout s) (font s)
    (write_outcome s) (trace s).

Definition set_heap (h : list Image) (s : State) : State :=
  mkState (g_img s) (g_draw s) h (files s) (stdout s) (font s)
    (write_outcome s) (trace s).

Definition set_files (f : gmap string File) (s : State) : State :=
  mkState (g_img s) (g_draw s) (heap s) f (stdout s) (font s)
    (write_outcome s) (trace s).

Definition set_stdout (o : list string) (s : State) : State :=
  mkState (g_img s) (g_draw s) (heap s) (files s) o (font s)
    (write_outcome s) (trace s).

Definition log (c : Call) (s : State) : State :=
  mkState (g_img s) (g_draw s) (heap s) (files s) (stdout s) (font s)
    (write_outcome s) (trace s ++ [c]).

(** ** The monad of statements: state, and an exception or a value *)

Definition M (A : Type) : Type := State -> (exn + A) * State.

Definition ret {A} (a : A) : M A := fun s => (inr a, s).

Definition raise {A} (e : exn) : M A := fun s => (inl e, s).

Definition bind {A B} (m : M A) (k : A -> M B) : M B :=
  fun s => match m s with
           | (inr a, s') => k a s'
           | (inl e, s') => (inl e, s')
           end.

Definition modify (f : State -> State) : M unit := fun s => (inr tt, f s).

Definition gets {A} (f : State -> A) : M A := fun s => (inr (f s), s).

Declare Scope py_scope.
Delimit Scope py_scope with py.
Notation "x <- m ;; k" := (bind m (fun x => k))
  (at level 100, m at next level, right associativity) : py_scope.
Notation "m ;; k" := (bind m (fun _ => k))
  (at level 100, right associativity) : py_scope.
Local Open Scope py_scope.

(** An optional value whose absence raises. *)
Definition expect {A} (o : option A) (e : exn) : M A :=
  match o with Some a => ret a | None => raise e end.

(** A colour name turned into an ink; an unknown name raises. *)
Definition draw_ink (name : string) : M RGB :=
  expect (getrgb name) (ValueError name).

Definition draw_ink_opt (name : option string) : M (option RGB) :=
  match name with
  | None => ret None
  | Some n => c <- draw_ink n ;; ret (Some c)
  end.

(** ** Pillow, as far as the script calls it *)

(** [Image.new(mode, size, color)]: a new image object on the heap, every
    pixel of it [color]; the result is the reference to it.  The buffer
    holds three channels per pixel, which is what mode ['RGB'] has. *)
Definition Image_new (mode : string) (size : Z * Z) (color : string) : M nat :=
  c <- draw_ink color ;;
  r <- gets (fun s => length (heap s)) ;;
  modify (fun s => set_heap (heap s ++ [mkImage mode size (fun _ _ => c)]) s) ;;
  ret r.

(** [ImageDraw.Draw(im)]: the drawing object keeps the reference, not a
    copy; its default ink in a colour mode is white and it does not fill. *)
Definition ImageDraw_Draw (im : nat) : M Draw :=
  ret (mkDraw im white false).

(** The drawing core changes the image behind the reference in place. *)
Definition draw_on (d : Draw) (f : Image -> Image) : M unit :=
  modify (fun s => set_heap (alter f (d_im d) (heap s)) s).

(** [ImageDraw._getink(ink, fill)]. *)
Definition getink (d : Draw) (ink fill : option string)
  : M (option RGB * option RGB) :=
  match ink, fill with
  | None, None =>
      if d_fill d then ret (None, Some (d_ink d))
      else ret (Some (d_ink d), None)
  | _, _ =>
      i <- draw_ink_opt ink ;;
      f <- draw_ink_opt fill ;;
      ret (i, f)
  end.

(** Does the outline pass run?  [ink is not None and ink != fill and
    width != 0]. *)
Definition outline_pass (ink fill : option RGB) (width : Z) : option RGB :=
  match ink with
  | None => None
  | Some i =>
      let same := match fill with Some f => rgb_eqb i f | None => false end in
      if negb same && negb (width =? 0) then Some i else None
  end.

(** [draw.rectangle(xy, fill=None, outline=None, width=1)]. *)
Definition rectangle (d : Draw) (xy : Box) (fill outline : option string)
    (width : Z) : M unit :=
  p <- getink d outline fill ;;
  let ink := fst p in
  let fl := snd p in
  match fl with
  | Some f => draw_on d (paint (rect_fill_mask xy) f)
  | None => ret tt
  end ;;
  match outline_pass ink fl width with
  | Some i => draw_on d (paint (rect_outline_mask xy width) i)
  | None => ret tt
  end ;;
  modify (log (CRectangle xy fl (outline_pass ink fl width) width)).

(** [draw.ellipse(xy, fill=None, outline=None, width=1)]. *)
Definition ellipse (d : Draw) (xy : Box) (fill outline : option string)
    (width : Z) : M unit :=
  p <- getink d outline fill ;;
  let ink := fst p in
  let fl := snd p in
  match fl with
  | Some f => draw_on d (paint (ellipse_fill_mask xy) f)
  | None => ret tt
  end ;;
  match outline_pass ink fl width with
  | Some i => draw_on d (paint (ellipse_outline_mask xy width) i)
  | None => ret tt
  end ;;
  modify (log (CEllipse xy fl (outline_pass ink fl width) width)).

(** [ImageDraw.getfont()] with no font set: the default font is loaded, and
    the error of a font that cannot be loaded is raised. *)
Definition getfont : M Font :=
  fun s => match font s with
           | inl e => (inl e, s)
           | inr f => (inr f, s)
           end.

(** The coverage of a byte of a mask, 0 to 255. *)
Definition coverage (b : Byte.byte) : Z := Z.of_N (Byte.to_N b).

(** The mask of a string drawn at the anchor [xy]: its coverage at the
    pixel [(x, y)]. *)
Definition text_mask (f : Font) (xy : Z * Z) (text : string) (x y : Z) : Z :=
  coverage (f text (x - fst xy) (y - snd xy)).

(** [draw.text(xy, text, fill=None)] with the default font. *)
Definition text (d : Draw) (xy : Z * Z) (txt : string) (fill : option string)
  : M unit :=
  f <- getfont ;;
  p <- getink d fill None ;;
  let ink := fst p in
  let fl := snd p in
  match (match ink with Some i => Some i | None => fl end) with
  | Some i =>
      draw_on d (draw_bitmap (text_mask f xy txt) i) ;;
      modify (log (CText xy txt i))
  | None => ret tt
  end.

(** What a failed write leaves in the working directory. *)
Definition leave (r : Residue) (filename : string) (im : Image)
    (fs : gmap string File) : gmap string File :=
  match r with
  | Untouched => fs
  | Truncated n => <[filename := PartialPng im n]> fs
  | Unlinked => delete filename fs
  end.

(** [im.save(filename)]: the format follows the extension; the file is
    opened for writing, which replaces a file of that name, and the encoded
    image is written to it.  An error of the operating system is raised as
    it is. *)
Definition Image_save (r : nat) (filename : string) : M unit :=
  im <- (fun s => expect (heap s !! r) (ValueError "image") s) ;;
  modify (log (CSave filename)) ;;
  o <- gets (fun s => write_outcome s filename) ;;
  match o with
  | WriteOk => modify (fun s => set_files (<[filename := PngFile im]> (files s)) s)
  | WriteErr e res =>
      modify (fun s => set_files (leave res filename im (files s)) s) ;;
      raise e
  end.

(** [print(line)]. *)
Definition print (line : string) : M unit :=
  modify (fun s => set_stdout (stdout s ++ [line]) s).

(** Reading a global that is not bound raises [NameError]. *)
Definition get_img : M nat :=
  fun s => expect (g_img s) (NameError "img") s.

Definition get_draw : M Draw :=
  fun s => expect (g_draw s) (NameError "draw") s.

(** ** The script, statement by statement *)

(** [img = Image.new('RGB', (400, 300), color='white')] *)
Definition line5 : M unit :=
  r <- Image_new "RGB" (400, 300) "white" ;; modify (set_img r).

(** [draw = ImageDraw.Draw(img)] *)
Definition line6 : M unit :=
  i <- get_img ;; d <- ImageDraw_Draw i ;; modify (set_draw d).

(** [draw.rectangle([50, 50, 350, 250], outline='blue', width=3)] *)
Definition line9 : M unit :=
  d <- get_draw ;; rectangle d (50, 50, 350, 250) None (Some "blue") 3.

(** [draw.text((80, 100), "AI Workflow CLI", fill='black')] *)
Definition line10 : M unit :=
  d <- get_draw ;; text d (80, 100) "AI Workflow CLI" (Some "black").

(** [draw.text((80, 140), "Multimodal Support", fill='blue')] *)
Definition line11 : M unit :=
  d <- get_draw ;; text d (80, 140) "Multimodal Support" (Some "blue").

(** [draw.ellipse([150, 180, 250, 220], fill='lightblue', outline='blue')] *)
Definition line12 : M unit :=
  d <- get_draw ;;
  ellipse d (150, 180, 250, 220) (Some "lightblue") (Some "blue") 1.

(** [draw.text((165, 190), "Images", fill='black')] *)
Definition line13 : M unit :=
  d <- get_draw ;; text d (165, 190) "Images" (Some "black").

(** [img.save('test-image.png')] *)
Definition line15 : M unit :=
  i <- get_img ;; Image_save i "test-image.png".

(** [print("Created test-image.png")] *)
Definition line16 : M unit :=
  print "Created test-image.png".

Definition script : list (M unit) :=
  [line5; line6; line9; line10; line11; line12; line13; line15; line16].

(** Statements run in order; the first exception ends the run. *)
Fixpoint run_lines (l : list (M unit)) : M unit :=
  match l with
  | [] => ret tt
  | c :: rest => c ;; run_lines rest
  end.

Definition main : M unit := run_lines script.

(** The state after the first [k] statements. *)
Definition after (k : nat) (e : Env) : State :=
  snd (run_lines (firstn k script) (boot e)).

(** ** The picture, layer by layer *)

(** The canvas as [Image.new] makes it. *)
Definition blank : Image := mkImage "RGB" (400, 300) (fun _ _ => white).

(** ... with the rectangle's outline. *)
Definition framed : Image :=
  paint (rect_outline_mask (50, 50, 350, 250) 3) blue blank.

(** ... with the first two labels. *)
Definition titled (f : Font) : Image :=
  draw_bitmap (text_mask f (80, 140) "Multimodal Support") blue
    (draw_bitmap (text_mask f (80, 100) "AI Workflow CLI") black framed).

(** ... with the ellipse: its inside first, its outline over it. *)
Definition badged (f : Font) : Image :=
  paint (ellipse_outline_mask (150, 180, 250, 220) 1) blue
    (paint (ellipse_fill_mask (150, 180, 250, 220)) lightblue (titled f)).

(** ... with the last label. *)
Definition picture (f : Font) : Image :=
  draw_bitmap (text_mask f (165, 190) "Images") black (badged f).

(** The calls of a run that got through all drawing. *)
Definition drawing_calls : list Call :=
  [CRectangle (50, 50, 350, 250) None (Some blue) 3;
   CText (80, 100) "AI Workflow CLI" black;
   CText (80, 140) "Multimodal Support" blue;
   CEllipse (150, 180, 250, 220) (Some lightblue) (Some blue) 1;
   CText (165, 190) "Images" black].

(** The handle that [draw] is bound to. *)
Definition the_draw : Draw := mkDraw 0 white false.

(** ** Reading the calls *)

(** The text calls among the calls carried out. *)
Definition is_text (c : Call) : bool :=
  match c with
  | CText _ _ _ => true
  | _ => false
  end.

(** The saves among the calls carried out. *)
Definition is_save (c : Call) : bool :=
  match c with
  | CSave _ => true
  | _ => false
  end.

(** The pixels a shape call paints. *)
Definition shape_mask (c : Call) (x y : Z) : bool :=
  match c with
  | CRectangle b fill outline width =>
      match fill with Some _ => rect_fill_mask b x y | None => false end ||
      match outline with Some _ => rect_outline_mask b width x y | None => false end
  | CEllipse b fill outline width =>
      match fill with Some _ => ellipse_fill_mask b x y | None => false end ||
      match outline with Some _ => ellipse_outline_mask b width x y | None => false end
  | CText _ _ _ => false
  | CSave _ => false
  end.

(** The anchors of the text calls. *)
Definition anchors (l : list Call) : list (Z * Z) :=
  flat_map (fun c => match c with CText xy _ _ => [xy] | _ => [] end) l.

(** ** Counting pixels *)

(** The pixels of a box, row by row. *)
Definition box_pixels (b : Box) : list (Z * Z) :=
  let '(x0, y0, x1, y1) := b in
  flat_map
    (fun j => map (fun i => (x0 + Z.of_nat i, y0 + Z.of_nat j))
                  (seq 0 (Z.to_nat (x1 - x0 + 1))))
    (seq 0 (Z.to_nat (y1 - y0 + 1))).

(** How many pixels of a box a mask holds. *)
Definition count_in (b : Box) (m : Z -> Z -> bool) : nat :=
  length (List.filter (fun p => m (fst p) (snd p)) (box_pixels b)).

(** Both ends of a span lie in a box. *)
Definition span_in_box (b : Box) (sp : Span) : bool :=
  let '(xa, ys, xb) := sp in
  in_box b xa ys && in_box b xb ys.

(** A pixel as the image buffer holds it: three bytes. *)
Definition valid_rgb (c : RGB) : Prop :=
  let '(r, g, b) := c in
  0 <= r <= 255 /\ 0 <= g <= 255 /\ 0 <= b <= 255.

(** ** A sample environment *)

(** A font of solid blocks: each character is a block of 5 by 10 pixels in
    a cell of 6 by 11. *)
Definition block_font : Font :=
  fun s dx dy =>
    if (0 <=? dx) && (dx <? 6 * Z.of_nat (String.length s)) &&
       (dx mod 6 <? 5) && (0 <=? dy) && (dy <? 10)
    then Byte.xff else Byte.x00.

(** An empty working directory, nothing printed yet, a font that loads and
    a disk that takes every write. *)
Definition sample_env : Env :=
  mkEnv ∅ [] (inr block_font) (fun _ => WriteOk).

(** A read-only working directory. *)
Definition readonly_env : Env :=
  mkEnv ∅ [] (inr block_font) (fun _ => WriteErr (OSError 13) Untouched).

(** A default font that cannot be loaded. *)
Definition fontless_env : Env :=
  mkEnv ∅ [] (inl (OSError 2)) (fun _ => WriteOk).

(** ** The three ways a run ends *)

(** Runs the statements on a state whose environment is a variable; the
    masks and the file map stay folded. *)
Ltac run_script :=
  lazy -[insert delete paint draw_bitmap rect_outline_mask rect_fill_mask
         ellipse_fill_mask ellipse_outline_mask text_mask].

Lemma main_success (e : Env) (f : Font) :
  e_font e = inr f ->
  e_write e "test-image.png" = WriteOk ->
  main (boot e) =
    (inr tt,
     mkState (Some 0%nat) (Some the_draw) [picture f]
       (<["test-image.png" := PngFile (picture f)]> (e_files e))
       (e_stdout e ++ ["Created test-image.png"])
       (e_font e) (e_write e)
       (drawing_calls ++ [CSave "test-image.png"])).
Proof.
  destruct e as [fs out fnt wr]; cbn [e_font e_write e_files e_stdout].
  intros -> Hw. run_script. rewrite Hw. reflexivity.
Qed.

Lemma main_font_error (e : Env) (x : exn) :
  e_font e = inl x ->
  main (boot e) =
    (inl x,
     mkState (Some 0%nat) (Some the_draw) [framed]
       (e_files e) (e_stdout e) (e_font e) (e_write e)
       [CRectangle (50, 50, 350, 250) None (Some blue) 3]).
Proof.
  destruct e as [fs out fnt wr]; cbn [e_font e_write e_files e_stdout].
  intros ->. reflexivity.
Qed.

Lemma main_write_error (e : Env) (f : Font) (x : exn) (r : Residue) :
  e_font e = inr f ->
  e_write e "test-image.png" = WriteErr x r ->
  main (boot e) =
    (inl x,
     mkState (Some 0%nat) (Some the_draw) [picture f]
       (leave r "test-image.png" (picture f) (e_files e))
       (e_stdout e)
       (e_font e) (e_write e)
       (drawing_calls ++ [CSave "test-image.png"])).
Proof.
  destruct e as [fs out fnt wr]; cbn [e_font e_write e_files e_stdout].
  intros -> Hw. run_script. rewrite Hw. reflexivity.
Qed.

(** Every run ends in one of the three ways. *)
Lemma main_cases (e : Env) :
  (exists x, e_font e = inl x) \/
  (exists f x r, e_font e = inr f /\ e_write e "test-image.png" = WriteErr x r) \/
  (exists f, e_font e = inr f /\ e_write e "test-image.png" = WriteOk).
Proof.
  destruct (e_font e) as [x | f]; [left; eauto |].
  destruct (e_write e "test-image.png") as [| x r]; right; [right | left]; eauto.
Qed.

(** The statements past the end of the script do not exist. *)
Lemma after_end (e : Env) (k : nat) :
  (9 <= k)%nat -> after k e = snd (main (boot e)).
Proof.
  intros Hk. unfold after, main.
  rewrite firstn_all2; [reflexivity | exact Hk].
Qed.

(** From the first statement on the heap holds one image object, an RGB
    image of 400 by 300 pixels, whatever the environment does. *)
Lemma heap_after (e : Env) (k : nat) :
  (1 <= k)%nat ->
  exists im, heap (after k e) = [im] /\
             im_mode im = "RGB" /\ im_size im = (400, 300).
Proof.
  intros Hk.
  assert (Hc : (k = 1 \/ k = 2 \/ k = 3 \/ k = 4 \/ k = 5 \/ k = 6 \/
                k = 7 \/ k = 8 \/ 9 <= k)%nat) by lia.
  destruct Hc as [-> | [-> | [-> | [-> | [-> | [-> | [-> | [-> | H9]]]]]]]];
    try rewrite (after_end e k H9); unfold after, main;
    destruct e as [fs out [x | f] wr]; run_script;
    try destruct (wr "test-image.png");
    eexists; (split; [reflexivity | split; reflexivity]).
Qed.

(** Three runs: all goes well; the directory is read-only; the font is
    missing. *)
Example run_sample :
  fst (main (boot sample_env)) = inr tt /\
  stdout (snd (main (boot sample_env))) = ["Created test-image.png"].
Proof. split; reflexivity. Qed.

Example run_readonly :
  fst (main (boot readonly_env)) = inl (OSError 13) /\
  files (snd (main (boot readonly_env))) = ∅.
Proof. split; reflexivity. Qed.

Example run_fontless :
  fst (main (boot fontless_env)) = inl (OSError 2) /\
  heap (snd (main (boot fontless_env))) = [framed].
Proof. split; reflexivity. Qed.

(** ** The canvas *)

(** C1: the program allocates one canvas, an RGB image of width 400 and
    height 300 that is white at every pixel; after each later statement
    there is still exactly this one image object and its size is still
    400 by 300; and the image that a successful run writes is that object,
    so it is 400 by 300 as well. *)
Theorem canvas_is_400x300 (e : Env) (k : nat) :
  (1 <= k)%nat ->
  (heap (after 0 e) = [] /\ heap (after 1 e) = [blank] /\
   forall x y, in_bounds (400, 300) x y = true ->
               getpixel blank (x, y) = Some white) /\
  (exists im, heap (after k e) = [im] /\
              im_mode im = "RGB" /\ im_size im = (400, 300)) /\
  (forall s, main (boot e) = (inr tt, s) ->
     exists im, heap s = [im] /\
                files s !! "test-image.png" = Some (PngFile im) /\
                im_size im = (400, 300)).
Proof.
  intros Hk. split; [| split].
  - split; [reflexivity | split; [reflexivity |]].
    intros x y Hin. unfold getpixel. cbn [fst snd blank im_size].
    rewrite Hin. reflexivity.
  - apply heap_after, Hk.
  - intros s Hs.
    destruct (main_cases e) as [[x Hf] | [(f & x & r & Hf & Hw) | (f & Hf & Hw)]].
    + rewrite (main_font_error e x Hf) in Hs. discriminate.
    + rewrite (main_write_error e f x r Hf Hw) in Hs. discriminate.
    + rewrite (main_success e f Hf Hw) in Hs. injection Hs as <-.
      exists (picture f). cbn [heap files]. split; [reflexivity |].
      split; [apply lookup_insert_eq | reflexivity].
Qed.

Lemma canvas_is_400x300_witness :
  (1 <= 5)%nat /\
  exists im, heap (after 5 sample_env) = [im] /\
             im_mode im = "RGB" /\ im_size im = (400, 300).
Proof.
  split; [lia |].
  apply (proj1 (proj2 (canvas_is_400x300 sample_env 5 ltac:(lia)))).
Defined.

(** ** Reading pixels *)

Lemma in_bounds_spec (size : Z * Z) (x y : Z) :
  in_bounds size x y = true <-> 0 <= x < fst size /\ 0 <= y < snd size.
Proof.
  unfold in_bounds.
  rewrite !andb_true_iff, !Z.leb_le, !Z.ltb_lt. lia.
Qed.

Lemma in_box_spec (x0 y0 x1 y1 x y : Z) :
  in_box (x0, y0, x1, y1) x y = true <-> x0 <= x <= x1 /\ y0 <= y <= y1.
Proof.
  unfold in_box.
  rewrite !andb_true_iff, !Z.leb_le. lia.
Qed.

Lemma rect_outline_mask_spec (x0 y0 x1 y1 w x y : Z) :
  w <> 0 ->
  rect_outline_mask (x0, y0, x1, y1) w x y = true <->
  (x0 <= x <= x1 /\ y0 <= y <= y1) /\
  (y < y0 + w \/ y1 - w < y \/ x < x0 + w \/ x1 - w < x).
Proof.
  intros Hw. unfold rect_outline_mask.
  destruct (Z.eqb_spec w 0) as [E | _]; [contradiction |].
  rewrite andb_true_iff, !orb_true_iff, in_box_spec, !Z.ltb_lt. tauto.
Qed.

(** Painting shows through [getpixel]: inside the image a pixel of the set
    has the ink and any other pixel is as before. *)
Lemma getpixel_paint (m : Z -> Z -> bool) (ink : RGB) (im : Image) (x y : Z) :
  getpixel (paint m ink im) (x, y) =
  match getpixel im (x, y) with
  | Some c => Some (if m x y then ink else c)
  | None => None
  end.
Proof.
  unfold getpixel, paint. cbn [fst snd im_size im_data].
  destruct (in_bounds (im_size im) x y); [| reflexivity].
  rewrite andb_true_r. reflexivity.
Qed.

Lemma getpixel_blank (x y : Z) :
  in_bounds (400, 300) x y = true -> getpixel blank (x, y) = Some white.
Proof.
  intros Hin. unfold getpixel. cbn [fst snd blank im_size im_data].
  rewrite Hin. reflexivity.
Qed.

(** The canvas with the rectangle on it: blue on the stroke, white
    elsewhere. *)
Lemma getpixel_framed (x y : Z) :
  in_bounds (400, 300) x y = true ->
  getpixel framed (x, y) =
  Some (if rect_outline_mask (50, 50, 350, 250) 3 x y then blue else white).
Proof.
  intros Hin. unfold framed.
  rewrite getpixel_paint, (getpixel_blank x y Hin). reflexivity.
Qed.

(** ** The rectangle *)

(** C2: the first drawing call after the canvas is made (nothing is drawn
    by the first two statements) is the rectangle with corners (50,50) and
    (350,250), no fill, outline blue (0,0,255), width 3.  On the canvas at
    that point a pixel of the box within 3 pixels of one of its edges is
    blue, and a pixel further inside is white as before, as is a pixel
    outside the box. *)
Theorem rectangle_outline_only (e : Env) (x y : Z) :
  in_bounds (400, 300) x y = true ->
  trace (after 2 e) = [] /\
  trace (after 3 e) = [CRectangle (50, 50, 350, 250) None (Some blue) 3] /\
  blue = (0, 0, 255) /\
  exists im,
    heap (after 3 e) = [im] /\
    (50 <= x <= 350 /\ 50 <= y <= 250 /\
     (x <= 52 \/ 348 <= x \/ y <= 52 \/ 248 <= y) ->
     getpixel im (x, y) = Some blue) /\
    (53 <= x <= 347 /\ 53 <= y <= 247 -> getpixel im (x, y) = Some white) /\
    (x < 50 \/ 350 < x \/ y < 50 \/ 250 < y ->
     getpixel im (x, y) = Some white).
Proof.
  intros Hin.
  split; [reflexivity |]. split; [reflexivity |]. split; [reflexivity |].
  exists framed. split; [reflexivity |].
  rewrite (getpixel_framed x y Hin).
  destruct (rect_outline_mask (50, 50, 350, 250) 3 x y) eqn:Hm.
  - apply rect_outline_mask_spec in Hm; [| lia].
    split; [reflexivity |]. split; intros H; exfalso; lia.
  - assert (Hn : ~ ((50 <= x <= 350 /\ 50 <= y <= 250) /\
                    (y < 50 + 3 \/ 250 - 3 < y \/ x < 50 + 3 \/ 350 - 3 < x))).
    { intros H. apply rect_outline_mask_spec in H; [| lia]. congruence. }
    split; [intros H; exfalso; lia |]. split; reflexivity.
Qed.

Lemma rectangle_outline_only_witness :
  in_bounds (400, 300) 200 51 = true /\
  exists im, heap (after 3 sample_env) = [im] /\
             getpixel im (200, 51) = Some blue.
Proof.
  split; [reflexivity |].
  destruct (rectangle_outline_only sample_env 200 51 eq_refl)
    as (_ & _ & _ & im & Hh & Hb & _).
  exists im. split; [exact Hh | apply Hb; lia].
Defined.

(** ** Mixing ink *)

Lemma DIV255_spec (a : Z) :
  0 <= a -> DIV255 a = (a + 128 + (a + 128) / 256) / 256.
Proof.
  intros Ha. unfold DIV255. rewrite !Z.shiftr_div_pow2 by lia.
  change (2 ^ 8) with 256. f_equal. lia.
Qed.

Lemma DIV255_mul255 (u : Z) : 0 <= u <= 255 -> DIV255 (u * 255) = u.
Proof.
  intros Hu. rewrite DIV255_spec by lia.
  Z.div_mod_to_equations. lia.
Qed.

Lemma DIV255_range (a : Z) : 0 <= a <= 65025 -> 0 <= DIV255 a <= 255.
Proof.
  intros Ha. rewrite DIV255_spec by lia.
  Z.div_mod_to_equations. lia.
Qed.

(** No coverage leaves the channel of the image as it is. *)
Lemma BLEND8_zero (u i : Z) : 0 <= u <= 255 -> BLEND8 0 u i = u.
Proof.
  intros Hu. unfold BLEND8.
  replace (u * (255 - 0) + i * 0) with (u * 255) by lia.
  apply DIV255_mul255, Hu.
Qed.

(** Full coverage gives the channel of the ink. *)
Lemma BLEND8_full (u i : Z) : 0 <= i <= 255 -> BLEND8 255 u i = i.
Proof.
  intros Hi. unfold BLEND8.
  replace (u * (255 - 255) + i * 255) with (i * 255) by lia.
  apply DIV255_mul255, Hi.
Qed.

Lemma BLEND8_range (m u i : Z) :
  0 <= m <= 255 -> 0 <= u <= 255 -> 0 <= i <= 255 ->
  0 <= BLEND8 m u i <= 255.
Proof.
  intros Hm Hu Hi. unfold BLEND8. apply DIV255_range. nia.
Qed.

Lemma coverage_range (b : byte) : 0 <= coverage b <= 255.
Proof.
  unfold coverage. pose proof (Byte.to_N_bounded b) as H. lia.
Qed.

Lemma blend_zero (under ink : RGB) :
  valid_rgb under -> blend 0 under ink = under.
Proof.
  destruct under as [[r1 g1] b1], ink as [[r2 g2] b2].
  intros (Hr & Hg & Hb). unfold blend.
  rewrite !BLEND8_zero by assumption. reflexivity.
Qed.

Lemma blend_full (under ink : RGB) :
  valid_rgb ink -> blend 255 under ink = ink.
Proof.
  destruct under as [[r1 g1] b1], ink as [[r2 g2] b2].
  intros (Hr & Hg & Hb). unfold blend.
  rewrite !BLEND8_full by assumption. reflexivity.
Qed.

Lemma blend_valid (m : Z) (under ink : RGB) :
  0 <= m <= 255 -> valid_rgb under -> valid_rgb ink ->
  valid_rgb (blend m under ink).
Proof.
  destruct under as [[r1 g1] b1], ink as [[r2 g2] b2].
  intros Hm (Hr1 & Hg1 & Hb1) (Hr2 & Hg2 & Hb2). unfold blend, valid_rgb.
  repeat split; apply BLEND8_range; lia.
Qed.

Lemma valid_colours :
  valid_rgb white /\ valid_rgb black /\ valid_rgb blue /\ valid_rgb lightblue.
Proof. unfold valid_rgb, white, black, blue, lightblue. lia. Qed.

(** The bitmap shows through [getpixel]: inside the image a pixel is the
    mix of what was there and the ink. *)
Lemma getpixel_draw_bitmap (m : Z -> Z -> Z) (ink : RGB) (im : Image) (x y : Z) :
  getpixel (draw_bitmap m ink im) (x, y) =
  match getpixel im (x, y) with
  | Some c => Some (blend (m x y) c ink)
  | None => None
  end.
Proof.
  unfold getpixel, draw_bitmap. cbn [fst snd im_size im_data].
  destruct (in_bounds (im_size im) x y); reflexivity.
Qed.

Lemma text_mask_range (f : Font) (xy : Z * Z) (s : string) (x y : Z) :
  0 <= text_mask f xy s x y <= 255.
Proof. apply coverage_range. Qed.

Lemma valid_paint (m : Z -> Z -> bool) (ink : RGB) (im : Image) :
  valid_rgb ink -> (forall x y, valid_rgb (im_data im x y)) ->
  forall x y, valid_rgb (im_data (paint m ink im) x y).
Proof.
  intros Hi Him x y. unfold paint. cbn [im_data].
  destruct (m x y && in_bounds (im_size im) x y); [exact Hi | apply Him].
Qed.

Lemma valid_draw_bitmap (m : Z -> Z -> Z) (ink : RGB) (im : Image) :
  valid_rgb ink -> (forall x y, 0 <= m x y <= 255) ->
  (forall x y, valid_rgb (im_data im x y)) ->
  forall x y, valid_rgb (im_data (draw_bitmap m ink im) x y).
Proof.
  intros Hi Hm Him x y. unfold draw_bitmap. cbn [im_data].
  destruct (in_bounds (im_size im) x y); [| apply Him].
  apply blend_valid; [apply Hm | apply Him | exact Hi].
Qed.

Lemma valid_framed (x y : Z) : valid_rgb (im_data framed x y).
Proof.
  apply valid_paint; [apply valid_colours |].
  intros x' y'. apply valid_colours.
Qed.

Lemma valid_titled (f : Font) (x y : Z) : valid_rgb (im_data (titled f) x y).
Proof.
  unfold titled.
  apply valid_draw_bitmap;
    [apply valid_colours | intros; apply text_mask_range |].
  apply valid_draw_bitmap;
    [apply valid_colours | intros; apply text_mask_range |].
  apply valid_framed.
Qed.

Lemma valid_badged (f : Font) (x y : Z) : valid_rgb (im_data (badged f) x y).
Proof.
  unfold badged.
  apply valid_paint; [apply valid_colours |].
  apply valid_paint; [apply valid_colours |].
  apply valid_titled.
Qed.

(** ** The ellipse of the script, as the rasteriser draws it *)

Lemma in_box_pixels (x0 y0 x1 y1 x y : Z) :
  in_box (x0, y0, x1, y1) x y = true ->
  In (x, y) (box_pixels (x0, y0, x1, y1)).
Proof.
  intros H. apply in_box_spec in H. unfold box_pixels.
  apply in_flat_map. exists (Z.to_nat (y - y0)). split.
  - apply in_seq. lia.
  - apply in_map_iff. exists (Z.to_nat (x - x0)). split.
    + f_equal; lia.
    + apply in_seq. lia.
Qed.

(** What holds of every pixel of a box's list holds of every pixel in the
    box. *)
Lemma box_forall (b : Box) (P : Z -> Z -> bool) (x y : Z) :
  forallb (fun p => P (fst p) (snd p)) (box_pixels b) = true ->
  in_box b x y = true -> P x y = true.
Proof.
  intros Hall Hin. destruct b as [[[x0 y0] x1] y1].
  rewrite forallb_forall in Hall.
  apply (Hall (x, y)), in_box_pixels, Hin.
Qed.

(** Spans that end in a box cover pixels of the box only. *)
Lemma span_mask_in_box (b : Box) (l : list Span) (x y : Z) :
  forallb (span_in_box b) l = true ->
  span_mask l x y = true -> in_box b x y = true.
Proof.
  intros Hall Hm. unfold span_mask in Hm.
  apply existsb_exists in Hm. destruct Hm as ([[xa ys] xb] & Hsp & Hon).
  rewrite forallb_forall in Hall. specialize (Hall _ Hsp).
  destruct b as [[[x0 y0] x1] y1].
  unfold span_in_box in Hall. apply andb_true_iff in Hall.
  destruct Hall as [Ha Hb].
  apply in_box_spec in Ha. apply in_box_spec in Hb. apply in_box_spec.
  unfold on_span in Hon. rewrite !andb_true_iff in Hon.
  destruct Hon as [[Hy Hl] Hr].
  apply Z.eqb_eq in Hy. apply Z.leb_le in Hl. apply Z.leb_le in Hr. lia.
Qed.

Lemma fill_spans_in_box :
  forallb (span_in_box (150, 180, 250, 220))
    (ellipseNew (150, 180, 250, 220) true 1) = true.
Proof. vm_compute. reflexivity. Qed.

Lemma outline_spans_in_box :
  forallb (span_in_box (150, 180, 250, 220))
    (ellipseNew (150, 180, 250, 220) false 1) = true.
Proof. vm_compute. reflexivity. Qed.

(** Every pixel of the filled ellipse lies in its box. *)
Lemma ellipse_fill_in_box (x y : Z) :
  ellipse_fill_mask (150, 180, 250, 220) x y = true ->
  150 <= x <= 250 /\ 180 <= y <= 220.
Proof.
  intros H. apply in_box_spec.
  revert H. apply span_mask_in_box, fill_spans_in_box.
Qed.

Lemma ellipse_outline_in_box (x y : Z) :
  ellipse_outline_mask (150, 180, 250, 220) 1 x y = true ->
  150 <= x <= 250 /\ 180 <= y <= 220.
Proof.
  intros H. apply in_box_spec.
  revert H. apply span_mask_in_box, outline_spans_in_box.
Qed.

Lemma outline_in_fill_spans :
  (let lf := ellipseNew (150, 180, 250, 220) true 1 in
   let lo := ellipseNew (150, 180, 250, 220) false 1 in
   forallb (fun p => implb (span_mask lo (fst p) (snd p))
                           (span_mask lf (fst p) (snd p)))
     (box_pixels (150, 180, 250, 220))) = true.
Proof. vm_compute. reflexivity. Qed.

(** The outline runs on pixels of the filled ellipse. *)
Lemma ellipse_outline_in_fill (x y : Z) :
  ellipse_outline_mask (150, 180, 250, 220) 1 x y = true ->
  ellipse_fill_mask (150, 180, 250, 220) x y = true.
Proof.
  intros Ho.
  assert (Hb : in_box (150, 180, 250, 220) x y = true).
  { apply in_box_spec, ellipse_outline_in_box, Ho. }
  pose proof (box_forall (150, 180, 250, 220)
    (fun x y => implb (ellipse_outline_mask (150, 180, 250, 220) 1 x y)
                      (ellipse_fill_mask (150, 180, 250, 220) x y))
    x y outline_in_fill_spans Hb) as H.
  cbv beta in H. rewrite Ho in H. exact H.
Qed.

Lemma ellipse_count_spans :
  (let lf := ellipseNew (150, 180, 250, 220) true 1 in
   count_in (150, 180, 250, 220) (span_mask lf)) = 3253%nat /\
  (let lo := ellipseNew (150, 180, 250, 220) false 1 in
   count_in (150, 180, 250, 220) (span_mask lo)) = 216%nat.
Proof. split; vm_compute; reflexivity. Qed.

(** The filled ellipse has 3253 pixels, 216 of them on the outline. *)
Lemma ellipse_counts :
  count_in (150, 180, 250, 220) (ellipse_fill_mask (150, 180, 250, 220)) =
    3253%nat /\
  count_in (150, 180, 250, 220) (ellipse_outline_mask (150, 180, 250, 220) 1) =
    216%nat.
Proof. exact ellipse_count_spans. Qed.

(** The outline touches the four sides of the box in their middle, the
    centre is filled and not on the outline, and the corner of the box is
    not painted. *)
Lemma ellipse_landmarks :
  ellipse_outline_mask (150, 180, 250, 220) 1 150 200 = true /\
  ellipse_outline_mask (150, 180, 250, 220) 1 250 200 = true /\
  ellipse_outline_mask (150, 180, 250, 220) 1 200 180 = true /\
  ellipse_outline_mask (150, 180, 250, 220) 1 200 220 = true /\
  ellipse_fill_mask (150, 180, 250, 220) 200 200 = true /\
  ellipse_outline_mask (150, 180, 250, 220) 1 200 200 = false /\
  ellipse_fill_mask (150, 180, 250, 220) 150 180 = false.
Proof. repeat split; vm_compute; reflexivity. Qed.

(** ** The canvas after each drawing statement *)

Lemma after_layers (e : Env) (f : Font) :
  e_font e = inr f ->
  heap (after 3 e) = [framed] /\
  heap (after 4 e) =
    [draw_bitmap (text_mask f (80, 100) "AI Workflow CLI") black framed] /\
  heap (after 5 e) = [titled f] /\
  heap (after 6 e) = [badged f] /\
  heap (after 7 e) = [picture f].
Proof.
  destruct e as [fs out fnt wr]; cbn [e_font]. intros ->.
  repeat split; run_script; reflexivity.
Qed.

Lemma getpixel_inside (im : Image) (x y : Z) :
  in_bounds (im_size im) x y = true ->
  getpixel im (x, y) = Some (im_data im x y).
Proof.
  intros H. unfold getpixel. cbn [fst snd]. rewrite H. reflexivity.
Qed.

(** The ellipse over whatever is under it. *)
Lemma getpixel_badged (f : Font) (x y : Z) :
  in_bounds (400, 300) x y = true ->
  getpixel (badged f) (x, y) =
  Some (if ellipse_outline_mask (150, 180, 250, 220) 1 x y then blue
        else if ellipse_fill_mask (150, 180, 250, 220) x y then lightblue
        else im_data (titled f) x y).
Proof.
  intros Hin. unfold badged. rewrite !getpixel_paint.
  rewrite (getpixel_inside (titled f) x y Hin). reflexivity.
Qed.

(** The state after the seven statements that make and draw the picture,
    when the font loads. *)
Lemma after_drawing (e : Env) (f : Font) :
  e_font e = inr f ->
  heap (after 7 e) = [picture f] /\ trace (after 7 e) = drawing_calls.
Proof.
  destruct e as [fs out fnt wr]; cbn [e_font]. intros ->.
  split; run_script; reflexivity.
Qed.

(** ** The ellipse *)

(** C3: the ellipse call has the box (150,180)-(250,220), fill light blue
    and outline blue; it is the call right after the label "Multimodal
    Support" and right before the label "Images".  The rasteriser fills 3253
    pixels, all of them in the box, 216 of them on the outline, which touches
    the four sides of the box.  After the ellipse statement a pixel of the
    ellipse is blue on the outline and light blue inside it, whatever the
    label before had left there, and any other pixel is as before.  The
    label "Images" is then mixed over that canvas: where it has full coverage
    the pixel is black, also inside the ellipse, where it has none the
    ellipse shows, and in between the two are mixed (half coverage on light
    blue gives (86,108,115)). *)
Theorem ellipse_under_images (e : Env) (f : Font) (x y : Z) :
  e_font e = inr f ->
  in_bounds (400, 300) x y = true ->
  (trace (after 5 e) =
     [CRectangle (50, 50, 350, 250) None (Some blue) 3;
      CText (80, 100) "AI Workflow CLI" black;
      CText (80, 140) "Multimodal Support" blue] /\
   trace (after 6 e) =
     (trace (after 5 e) ++
      [CEllipse (150, 180, 250, 220) (Some lightblue) (Some blue) 1])%list /\
   trace (after 7 e) =
     (trace (after 6 e) ++ [CText (165, 190) "Images" black])%list) /\
  (getrgb "lightblue" = Some lightblue /\
   blend 128 lightblue black = (86, 108, 115)) /\
  ((ellipse_fill_mask (150, 180, 250, 220) x y = true ->
    150 <= x <= 250 /\ 180 <= y <= 220) /\
   (ellipse_outline_mask (150, 180, 250, 220) 1 x y = true ->
    ellipse_fill_mask (150, 180, 250, 220) x y = true) /\
   count_in (150, 180, 250, 220) (ellipse_fill_mask (150, 180, 250, 220)) =
     3253%nat /\
   count_in (150, 180, 250, 220)
     (ellipse_outline_mask (150, 180, 250, 220) 1) = 216%nat /\
   ellipse_outline_mask (150, 180, 250, 220) 1 150 200 = true /\
   ellipse_outline_mask (150, 180, 250, 220) 1 250 200 = true /\
   ellipse_outline_mask (150, 180, 250, 220) 1 200 180 = true /\
   ellipse_outline_mask (150, 180, 250, 220) 1 200 220 = true /\
   ellipse_fill_mask (150, 180, 250, 220) 200 200 = true /\
   ellipse_outline_mask (150, 180, 250, 220) 1 200 200 = false /\
   ellipse_fill_mask (150, 180, 250, 220) 150 180 = false) /\
  exists im5 im6 im7 p5 p6,
    heap (after 5 e) = [im5] /\
    heap (after 6 e) = [im6] /\
    heap (after 7 e) = [im7] /\
    getpixel im5 (x, y) = Some p5 /\
    getpixel im6 (x, y) = Some p6 /\
    p6 = (if ellipse_outline_mask (150, 180, 250, 220) 1 x y then blue
          else if ellipse_fill_mask (150, 180, 250, 220) x y then lightblue
          else p5) /\
    getpixel im7 (x, y) =
      Some (blend (coverage (f "Images" (x - 165) (y - 190))) p6 black) /\
    (coverage (f "Images" (x - 165) (y - 190)) = 255 ->
     getpixel im7 (x, y) = Some black) /\
    (coverage (f "Images" (x - 165) (y - 190)) = 0 ->
     getpixel im7 (x, y) = Some p6).
Proof.
  intros Hf Hin.
  destruct (after_layers e f Hf) as (_ & _ & H5 & H6 & H7).
  split.
  { destruct e as [fs out fnt wr]; cbn [e_font] in Hf; subst fnt.
    split; [| split]; run_script; reflexivity. }
  split; [split; reflexivity |].
  split.
  { split; [apply ellipse_fill_in_box |].
    split; [apply ellipse_outline_in_fill |].
    split; [apply ellipse_counts |]. split; [apply ellipse_counts |].
    apply ellipse_landmarks. }
  exists (titled f), (badged f), (picture f), (im_data (titled f) x y),
    (if ellipse_outline_mask (150, 180, 250, 220) 1 x y then blue
     else if ellipse_fill_mask (150, 180, 250, 220) x y then lightblue
     else im_data (titled f) x y).
  split; [exact H5 |]. split; [exact H6 |]. split; [exact H7 |].
  split; [apply (getpixel_inside (titled f) x y Hin) |].
  split; [apply (getpixel_badged f x y Hin) |].
  split; [reflexivity |].
  assert (Hp : getpixel (picture f) (x, y) =
               Some (blend (coverage (f "Images" (x - 165) (y - 190)))
                       (if ellipse_outline_mask (150, 180, 250, 220) 1 x y
                        then blue
                        else if ellipse_fill_mask (150, 180, 250, 220) x y
                             then lightblue
                             else im_data (titled f) x y) black)).
  { unfold picture. rewrite getpixel_draw_bitmap, (getpixel_badged f x y Hin).
    reflexivity. }
  split; [exact Hp |]. split.
  - intros Hc. rewrite Hp, Hc, blend_full; [reflexivity | apply valid_colours].
  - intros Hc. rewrite Hp, Hc, blend_zero; [reflexivity |].
    destruct (ellipse_outline_mask (150, 180, 250, 220) 1 x y);
      [apply valid_colours |].
    destruct (ellipse_fill_mask (150, 180, 250, 220) x y);
      [apply valid_colours | apply valid_titled].
Qed.

Lemma ellipse_under_images_witness :
  e_font sample_env = inr block_font /\
  in_bounds (400, 300) 168 195 = true /\
  exists im, heap (after 7 sample_env) = [im] /\
             getpixel im (168, 195) = Some black.
Proof.
  split; [reflexivity |]. split; [reflexivity |].
  destruct (ellipse_under_images sample_env block_font 168 195 eq_refl eq_refl)
    as (_ & _ & _ & im5 & im6 & im7 & p5 & p6 & _ & _ & Hh & _ & _ & _ & _
        & Hfull & _).
  exists im7. split; [exact Hh | apply Hfull; reflexivity].
Defined.

(** ** The labels *)

(** C4: when the default font loads, the text calls of a run are exactly
    three, in this order: "AI Workflow CLI" at (80,100) in black, "Multimodal
    Support" at (80,140) in blue, "Images" at (165,190) in black.  Each is
    mixed into the canvas as it is at that point of the script, with the
    coverage the font gives the string at the pixel's offset from the
    anchor: full coverage leaves the label's colour, no coverage leaves the
    pixel as it was, and half coverage on white gives the grey
    (127,127,127) for black and (127,127,255) for blue. *)
Theorem three_labels_in_order (e : Env) (f : Font) (x y : Z) :
  e_font e = inr f ->
  in_bounds (400, 300) x y = true ->
  List.filter is_text (trace (snd (main (boot e)))) =
    [CText (80, 100) "AI Workflow CLI" black;
     CText (80, 140) "Multimodal Support" blue;
     CText (165, 190) "Images" black] /\
  (getrgb "black" = Some (0, 0, 0) /\ getrgb "blue" = Some (0, 0, 255) /\
   blend 128 white black = (127, 127, 127) /\
   blend 128 white blue = (127, 127, 255)) /\
  exists im3 im4 im5 im6 im7 p3 p4 p6,
    (heap (after 3 e) = [im3] /\ heap (after 4 e) = [im4] /\
     heap (after 5 e) = [im5] /\ heap (after 6 e) = [im6] /\
     heap (after 7 e) = [im7] /\ heap (snd (main (boot e))) = [im7]) /\
    (getpixel im3 (x, y) = Some p3 /\
     getpixel im4 (x, y) = Some p4 /\
     getpixel im6 (x, y) = Some p6) /\
    (p4 = blend (coverage (f "AI Workflow CLI" (x - 80) (y - 100))) p3 black /\
     getpixel im5 (x, y) =
       Some (blend (coverage (f "Multimodal Support" (x - 80) (y - 140)))
               p4 blue) /\
     getpixel im7 (x, y) =
       Some (blend (coverage (f "Images" (x - 165) (y - 190))) p6 black)) /\
    ((coverage (f "AI Workflow CLI" (x - 80) (y - 100)) = 255 -> p4 = black) /\
     (coverage (f "Multimodal Support" (x - 80) (y - 140)) = 255 ->
      getpixel im5 (x, y) = Some blue) /\
     (coverage (f "Images" (x - 165) (y - 190)) = 255 ->
      getpixel im7 (x, y) = Some black)) /\
    ((coverage (f "AI Workflow CLI" (x - 80) (y - 100)) = 0 -> p4 = p3) /\
     (coverage (f "Multimodal Support" (x - 80) (y - 140)) = 0 ->
      getpixel im5 (x, y) = Some p4) /\
     (coverage (f "Images" (x - 165) (y - 190)) = 0 ->
      getpixel im7 (x, y) = Some p6)).
Proof.
  intros Hf Hin.
  destruct (after_layers e f Hf) as (H3 & H4 & H5 & H6 & H7).
  assert (Hs : trace (snd (main (boot e))) =
               (drawing_calls ++ [CSave "test-image.png"])%list /\
               heap (snd (main (boot e))) = [picture f]).
  { destruct (e_write e "test-image.png") as [| x0 r] eqn:Hw.
    - rewrite (main_success e f Hf Hw). split; reflexivity.
    - rewrite (main_write_error e f x0 r Hf Hw). split; reflexivity. }
  destruct Hs as [Ht Hh]. rewrite Ht.
  split; [reflexivity |]. split; [repeat split; reflexivity |].
  set (l1 := draw_bitmap (text_mask f (80, 100) "AI Workflow CLI") black framed)
    in *.
  exists framed, l1, (titled f), (badged f), (picture f),
    (im_data framed x y),
    (blend (coverage (f "AI Workflow CLI" (x - 80) (y - 100)))
       (im_data framed x y) black),
    (im_data (badged f) x y).
  assert (G3 : getpixel framed (x, y) = Some (im_data framed x y))
    by apply (getpixel_inside framed x y Hin).
  assert (G4 : getpixel l1 (x, y) =
               Some (blend (coverage (f "AI Workflow CLI" (x - 80) (y - 100)))
                       (im_data framed x y) black)).
  { unfold l1. rewrite getpixel_draw_bitmap, G3. reflexivity. }
  assert (G5 : getpixel (titled f) (x, y) =
               Some (blend (coverage (f "Multimodal Support" (x - 80) (y - 140)))
                       (blend (coverage (f "AI Workflow CLI" (x - 80) (y - 100)))
                          (im_data framed x y) black) blue)).
  { unfold titled. fold l1. rewrite getpixel_draw_bitmap, G4. reflexivity. }
  assert (G6 : getpixel (badged f) (x, y) = Some (im_data (badged f) x y))
    by apply (getpixel_inside (badged f) x y Hin).
  assert (G7 : getpixel (picture f) (x, y) =
               Some (blend (coverage (f "Images" (x - 165) (y - 190)))
                       (im_data (badged f) x y) black)).
  { unfold picture. rewrite getpixel_draw_bitmap, G6. reflexivity. }
  assert (V4 : valid_rgb (blend (coverage (f "AI Workflow CLI" (x - 80) (y - 100)))
                            (im_data framed x y) black)).
  { apply blend_valid;
      [apply coverage_range | apply valid_framed | apply valid_colours]. }
  split; [repeat split; assumption |].
  split; [repeat split; assumption |].
  split; [split; [reflexivity | split; assumption] |].
  split.
  - split; [| split].
    + intros ->. apply blend_full, valid_colours.
    + intros Hc. rewrite G5, Hc, blend_full; [reflexivity | apply valid_colours].
    + intros Hc. rewrite G7, Hc, blend_full; [reflexivity | apply valid_colours].
  - split; [| split].
    + intros ->. apply blend_zero, valid_framed.
    + intros Hc. rewrite G5, Hc, blend_zero; [reflexivity | exact V4].
    + intros Hc. rewrite G7, Hc, blend_zero; [reflexivity | apply valid_badged].
Qed.

Lemma three_labels_in_order_witness :
  e_font sample_env = inr block_font /\
  in_bounds (400, 300) 80 140 = true /\
  exists im, heap (after 5 sample_env) = [im] /\
             getpixel im (80, 140) = Some blue.
Proof.
  split; [reflexivity |]. split; [reflexivity |].
  destruct (three_labels_in_order sample_env block_font 80 140 eq_refl eq_refl)
    as (_ & _ & im3 & im4 & im5 & im6 & im7 & p3 & p4 & p6
        & (_ & _ & Hh & _) & _ & _ & (_ & Hfull & _) & _).
  exists im5. split; [exact Hh | apply Hfull; reflexivity].
Defined.

(** ** The file *)

(** C5: the save comes after all the drawing calls; when the write goes
    through, the file [test-image.png] of the working directory holds the
    PNG of the finished canvas, whatever was there under that name before;
    and in every run, failed or not, every file of another name is as it
    was, where there was none there is none. *)
Theorem saved_as_test_image_png (e : Env) (f : Font) (p : string) :
  e_font e = inr f ->
  e_write e "test-image.png" = WriteOk ->
  p <> "test-image.png" ->
  fst (main (boot e)) = inr tt /\
  files (after 7 e) = e_files e /\
  trace (after 7 e) = drawing_calls /\
  trace (snd (main (boot e))) =
    (drawing_calls ++ [CSave "test-image.png"])%list /\
  heap (snd (main (boot e))) = [picture f] /\
  files (snd (main (boot e))) !! "test-image.png" = Some (PngFile (picture f)) /\
  files (snd (main (boot e))) !! p = e_files e !! p /\
  (forall e', files (snd (main (boot e'))) !! p = e_files e' !! p).
Proof.
  intros Hf Hw Hp.
  rewrite (main_success e f Hf Hw). cbn [fst snd files trace heap].
  split; [reflexivity |]. split.
  { destruct e as [fs out fnt wr]; cbn [e_font] in Hf; subst fnt.
    run_script. reflexivity. }
  split; [apply (after_drawing e f Hf) |].
  split; [reflexivity |]. split; [reflexivity |].
  split; [apply lookup_insert_eq |].
  split; [apply lookup_insert_ne; congruence |].
  intros e'.
  destruct (main_cases e')
    as [[x Hf'] | [(f' & x & r & Hf' & Hw') | (f' & Hf' & Hw')]].
  - rewrite (main_font_error e' x Hf'). reflexivity.
  - rewrite (main_write_error e' f' x r Hf' Hw'). cbn [snd files].
    destruct r; cbn [leave].
    + reflexivity.
    + apply lookup_insert_ne; congruence.
    + apply lookup_delete_ne; congruence.
  - rewrite (main_success e' f' Hf' Hw'). cbn [snd files].
    apply lookup_insert_ne; congruence.
Qed.

Lemma saved_as_test_image_png_witness :
  e_font sample_env = inr block_font /\
  e_write sample_env "test-image.png" = WriteOk /\
  "notes.txt" <> "test-image.png" /\
  files (snd (main (boot sample_env))) !! "test-image.png" =
    Some (PngFile (picture block_font)) /\
  files (snd (main (boot sample_env))) !! "notes.txt" =
    e_files sample_env !! "notes.txt".
Proof.
  split; [reflexivity |]. split; [reflexivity |].
  split; [discriminate |].
  destruct (saved_as_test_image_png sample_env block_font "notes.txt"
              eq_refl eq_refl ltac:(discriminate))
    as (_ & _ & _ & _ & _ & Hfile & Hother & _).
  split; [exact Hfile | exact Hother].
Defined.

(** ** The confirmation line *)

(** C7: nothing is printed up to and including the save.  A run that ends
    without an exception has printed exactly one line, [Created
    test-image.png], and the file is written by then; a run that ends with
    an exception has printed nothing. *)
Theorem confirmation_only_after_write (e : Env) :
  stdout (after 8 e) = e_stdout e /\
  match main (boot e) with
  | (inr _, s) =>
      stdout s = (e_stdout e ++ ["Created test-image.png"])%list /\
      exists im, files s !! "test-image.png" = Some (PngFile im)
  | (inl _, s) => stdout s = e_stdout e
  end.
Proof.
  split.
  - destruct e as [fs out [x | f] wr]; unfold after; run_script;
      [reflexivity |].
    destruct (wr "test-image.png"); reflexivity.
  - destruct (main_cases e)
      as [[x Hf] | [(f & x & r & Hf & Hw) | (f & Hf & Hw)]].
    + rewrite (main_font_error e x Hf). reflexivity.
    + rewrite (main_write_error e f x r Hf Hw). reflexivity.
    + rewrite (main_success e f Hf Hw). cbn [stdout files].
      split; [reflexivity |].
      exists (picture f). apply lookup_insert_eq.
Qed.

(** ** Errors *)

(** C8: when the default font cannot be loaded, or when it loads and the
    write of the file fails, the run ends with that very exception.  Nothing
    is printed and the save is attempted at most once.  After a font error
    the files are as they were and only the rectangle has been drawn; after
    a write error the working directory is as the failed write left it, so a
    partial file stays where it is. *)
Theorem errors_end_the_run (e : Env) (x : exn) :
  (e_font e = inl x \/
   exists f r, e_font e = inr f /\ e_write e "test-image.png" = WriteErr x r) ->
  fst (main (boot e)) = inl x /\
  stdout (snd (main (boot e))) = e_stdout e /\
  (length (List.filter is_save (trace (snd (main (boot e))))) <= 1)%nat /\
  (e_font e = inl x ->
   files (snd (main (boot e))) = e_files e /\
   trace (snd (main (boot e))) =
     [CRectangle (50, 50, 350, 250) None (Some blue) 3]) /\
  (forall f r,
     e_font e = inr f -> e_write e "test-image.png" = WriteErr x r ->
     files (snd (main (boot e))) =
       leave r "test-image.png" (picture f) (e_files e) /\
     trace (snd (main (boot e))) =
       (drawing_calls ++ [CSave "test-image.png"])%list) /\
  (forall f n,
     e_font e = inr f ->
     e_write e "test-image.png" = WriteErr x (Truncated n) ->
     files (snd (main (boot e))) !! "test-image.png" =
       Some (PartialPng (picture f) n)).
Proof.
  intros [Hf | (f & r & Hf & Hw)].
  - rewrite (main_font_error e x Hf). cbn [fst snd stdout files trace].
    split; [reflexivity |]. split; [reflexivity |].
    split; [cbn; lia |]. split; [intros _; split; reflexivity |].
    split; intros; congruence.
  - rewrite (main_write_error e f x r Hf Hw). cbn [fst snd stdout files trace].
    split; [reflexivity |]. split; [reflexivity |].
    split; [cbn; lia |]. split; [intros; congruence |].
    split.
    + intros f' r' Hf' Hw'.
      assert (f' = f) by congruence. assert (r' = r) by congruence.
      subst. split; reflexivity.
    + intros f' n Hf' Hw'.
      assert (f' = f) by congruence.
      assert (r = Truncated n) by congruence.
      subst. cbn [leave]. apply lookup_insert_eq.
Qed.

Lemma errors_end_the_run_witness :
  (exists f r, e_font readonly_env = inr f /\
               e_write readonly_env "test-image.png" = WriteErr (OSError 13) r) /\
  fst (main (boot readonly_env)) = inl (OSError 13) /\
  stdout (snd (main (boot readonly_env))) = [].
Proof.
  assert (H : exists f r, e_font readonly_env = inr f /\
              e_write readonly_env "test-image.png" = WriteErr (OSError 13) r).
  { exists block_font, Untouched. split; reflexivity. }
  split; [exact H |].
  destruct (errors_end_the_run readonly_env (OSError 13) (or_intror H))
    as (Hr & Ho & _).
  split; [exact Hr | exact Ho].
Defined.

(** ** Running it again *)

(** C9: with the same font, two runs that succeed, from whatever working
    directories and with whatever printed before, end with the same canvas,
    pixel for pixel, and with the same content in [test-image.png].  And a
    second run started where a successful first run ended, in a directory
    that still takes the write, succeeds as well; the directory holds the
    same files as after the first run, with the second run's image under
    the one name [test-image.png]. *)
Theorem same_picture_every_run (e1 e2 : Env) (f : Font) (s1 s2 : State) :
  e_font e1 = inr f ->
  e_font e2 = inr f ->
  main (boot e1) = (inr tt, s1) ->
  main (boot e2) = (inr tt, s2) ->
  (heap s1 = heap s2 /\
   (forall im1 im2 x y, heap s1 = [im1] -> heap s2 = [im2] ->
                        getpixel im1 (x, y) = getpixel im2 (x, y)) /\
   files s1 !! "test-image.png" = files s2 !! "test-image.png") /\
  exists s1',
    main (boot (env_of s1)) = (inr tt, s1') /\
    heap s1' = heap s1 /\
    files s1' = files s1 /\
    dom (files s1') = dom (files s1) /\
    files s1' !! "test-image.png" = Some (PngFile (picture f)).
Proof.
  intros Hf1 Hf2 Hs1 Hs2.
  destruct (e_write e1 "test-image.png") as [| x1 r1] eqn:Hw1.
  2:{ rewrite (main_write_error e1 f x1 r1 Hf1 Hw1) in Hs1. discriminate. }
  destruct (e_write e2 "test-image.png") as [| x2 r2] eqn:Hw2.
  2:{ rewrite (main_write_error e2 f x2 r2 Hf2 Hw2) in Hs2. discriminate. }
  rewrite (main_success e1 f Hf1 Hw1) in Hs1. injection Hs1 as <-.
  rewrite (main_success e2 f Hf2 Hw2) in Hs2. injection Hs2 as <-.
  cbn [heap files]. split.
  - split; [reflexivity |]. split.
    + intros im1 im2 x y H1 H2. congruence.
    + rewrite !lookup_insert_eq. reflexivity.
  - eexists. split.
    + apply (main_success _ f); cbn [env_of e_font e_write font write_outcome];
        assumption.
    + cbn [heap files env_of e_files].
      split; [reflexivity |].
      rewrite insert_insert_eq.
      split; [reflexivity |]. split; [reflexivity |].
      apply lookup_insert_eq.
Qed.

Lemma same_picture_every_run_witness :
  e_font sample_env = inr block_font /\
  main (boot sample_env) = (inr tt, snd (main (boot sample_env))) /\
  exists s',
    main (boot (env_of (snd (main (boot sample_env))))) = (inr tt, s') /\
    files s' = files (snd (main (boot sample_env))).
Proof.
  split; [reflexivity |].
  assert (H : main (boot sample_env) = (inr tt, snd (main (boot sample_env)))).
  { rewrite (main_success sample_env block_font eq_refl eq_refl). reflexivity. }
  split; [exact H |].
  destruct (same_picture_every_run sample_env sample_env block_font _ _
              eq_refl eq_refl H H) as (_ & s' & Hrun & _ & Hfiles & _).
  exists s'. split; [exact Hrun | exact Hfiles].
Defined.

(** ** Inside the canvas *)

(** C10: every pixel that the rectangle call (its stroke of width 3
    included) or the ellipse call paints lies inside the canvas of 400 by
    300, the rectangle's within (50,50)-(350,250) and the ellipse's within
    (150,180)-(250,220), and so does the anchor of every text call.  The
    shapes reach the sides of their boxes, the stroke in the corners
    (50,50) and (350,250) and the ellipse in the middle of each side, and
    the ellipse has all its 3253 pixels: nothing is cut off at an edge of
    the canvas. *)
Theorem shapes_inside_canvas (e : Env) (f : Font) (c : Call) (x y : Z) :
  e_font e = inr f ->
  In c (trace (after 7 e)) ->
  shape_mask c x y = true ->
  in_bounds (400, 300) x y = true /\
  Forall (fun xy => in_bounds (400, 300) (fst xy) (snd xy) = true)
    (anchors (trace (after 7 e))) /\
  anchors (trace (after 7 e)) = [(80, 100); (80, 140); (165, 190)] /\
  (rect_outline_mask (50, 50, 350, 250) 3 x y = true ->
   50 <= x <= 350 /\ 50 <= y <= 250) /\
  (ellipse_fill_mask (150, 180, 250, 220) x y = true ->
   150 <= x <= 250 /\ 180 <= y <= 220) /\
  (ellipse_outline_mask (150, 180, 250, 220) 1 x y = true ->
   150 <= x <= 250 /\ 180 <= y <= 220) /\
  (rect_outline_mask (50, 50, 350, 250) 3 50 50 = true /\
   rect_outline_mask (50, 50, 350, 250) 3 350 250 = true /\
   ellipse_outline_mask (150, 180, 250, 220) 1 150 200 = true /\
   ellipse_outline_mask (150, 180, 250, 220) 1 250 200 = true /\
   ellipse_outline_mask (150, 180, 250, 220) 1 200 180 = true /\
   ellipse_outline_mask (150, 180, 250, 220) 1 200 220 = true /\
   count_in (150, 180, 250, 220) (ellipse_fill_mask (150, 180, 250, 220)) =
     3253%nat).
Proof.
  intros Hf Hc Hm.
  destruct (after_drawing e f Hf) as [_ Ht]. rewrite Ht in *.
  assert (Hr : rect_outline_mask (50, 50, 350, 250) 3 x y = true ->
               50 <= x <= 350 /\ 50 <= y <= 250).
  { intros H. apply rect_outline_mask_spec in H; [tauto | lia]. }
  split; [| split; [| split; [| split; [| split; [| split]]]]].
  - unfold drawing_calls in Hc. cbn [In] in Hc.
    destruct Hc as [<- | [<- | [<- | [<- | [<- | []]]]]];
      cbn [shape_mask orb] in Hm; try discriminate.
    + apply Hr in Hm. apply in_bounds_spec. cbn [fst snd]. lia.
    + apply orb_true_iff in Hm. destruct Hm as [Hm | Hm].
      * apply ellipse_fill_in_box in Hm.
        apply in_bounds_spec. cbn [fst snd]. lia.
      * apply ellipse_outline_in_box in Hm.
        apply in_bounds_spec. cbn [fst snd]. lia.
  - repeat constructor.
  - reflexivity.
  - exact Hr.
  - apply ellipse_fill_in_box.
  - apply ellipse_outline_in_box.
  - split; [reflexivity |]. split; [reflexivity |].
    destruct ellipse_landmarks as (L1 & L2 & L3 & L4 & _).
    split; [exact L1 |]. split; [exact L2 |]. split; [exact L3 |].
    split; [exact L4 |]. apply ellipse_counts.
Qed.

Lemma shapes_inside_canvas_witness :
  e_font sample_env = inr block_font /\
  In (CEllipse (150, 180, 250, 220) (Some lightblue) (Some blue) 1)
     (trace (after 7 sample_env)) /\
  shape_mask (CEllipse (150, 180, 250, 220) (Some lightblue) (Some blue) 1)
    250 200 = true /\
  in_bounds (400, 300) 250 200 = true.
Proof.
  split; [reflexivity |].
  assert (Hin : In (CEllipse (150, 180, 250, 220) (Some lightblue) (Some blue) 1)
                   (trace (after 7 sample_env))).
  { right. right. right. left. reflexivity. }
  assert (Hm : shape_mask
                 (CEllipse (150, 180, 250, 220) (Some lightblue) (Some blue) 1)
                 250 200 = true).
  { vm_compute. reflexivity. }
  split; [exact Hin |]. split; [exact Hm |].
  apply (shapes_inside_canvas sample_env block_font
           (CEllipse (150, 180, 250, 220) (Some lightblue) (Some blue) 1)
           250 200 eq_refl Hin Hm).
Defined.

(** ** How a run can end *)

(** The script has no failure of its own: every global is bound before it
    is read and every colour name it passes is known, so neither
    [NameError] nor [ValueError] arises from it.  A run succeeds exactly
    when the default font loads and the write of [test-image.png] goes
    through, and it ends with an exception [x] exactly when [x] is the
    error of the font, or the font loads and [x] is the error of the
    write. *)
Theorem run_outcome (e : Env) (x : exn) :
  (fst (main (boot e)) = inr tt <->
   (exists f, e_font e = inr f) /\ e_write e "test-image.png" = WriteOk) /\
  (fst (main (boot e)) = inl x <->
   e_font e = inl x \/
   ((exists f, e_font e = inr f) /\
    exists r, e_write e "test-image.png" = WriteErr x r)).
Proof.
  destruct (main_cases e)
    as [[x0 Hf] | [(f & x0 & r & Hf & Hw) | (f & Hf & Hw)]].
  - rewrite (main_font_error e x0 Hf). cbn [fst]. split; split.
    + discriminate.
    + intros [[f Hf'] _]. congruence.
    + intros H. left. congruence.
    + intros [H | [[f Hf'] _]]; congruence.
  - rewrite (main_write_error e f x0 r Hf Hw). cbn [fst]. split; split.
    + discriminate.
    + intros [_ H]. congruence.
    + intros H. right. split; [eauto |]. exists r. congruence.
    + intros [H | [_ [r' H]]]; congruence.
  - rewrite (main_success e f Hf Hw). cbn [fst]. split; split.
    + intros _. split; [eauto | exact Hw].
    + reflexivity.
    + discriminate.
    + intros [H | [_ [r' H]]]; congruence.
Qed.

Lemma run_outcome_witness :
  ((exists f, e_font sample_env = inr f) /\
   e_write sample_env "test-image.png" = WriteOk) /\
  fst (main (boot sample_env)) = inr tt.
Proof.
  assert (H : (exists f, e_font sample_env = inr f) /\
              e_write sample_env "test-image.png" = WriteOk).
  { split; [exists block_font; reflexivity | reflexivity]. }
  split; [exact H |].
  apply (proj2 (proj1 (run_outcome sample_env (OSError 0))) H).
Defined.

